(** * ProgressBar: the rolling window and the ETC estimator

    A shallow embedding of [include/CircularBuffer.hpp] and of the
    estimator part of [src/ProgressBar.cpp] ([calculate_etc], [display],
    [tick], [is_done], [done]), with the duration arithmetic of
    [append_time] and the layout computed by [calculate_bar].

    Conventions of the model.
    - [size_t] values are integers in [0, 2^64); arithmetic on them wraps
      modulo [2^64] and the wrap is written out ([u64]).
    - [std::chrono::milliseconds::rep] is a signed 64-bit integer; the
      conversion of an unsigned value to it is the two's complement one
      ([s64]).
    - [double] values are modelled by exact rationals ([Q]): the model
      abstracts from binary64 rounding (for [std::reduce] the order of the
      additions, hence the rounding, is not even fixed by the language).
      Only [std::sqrt] leaves the rationals; its result is a real number.
    - A call either returns, throws a C++ exception, or has undefined
      behaviour: the three cases of [outcome].
    - Time points of [std::chrono::steady_clock] are integers counting
      nanoseconds. *)

From Stdlib Require Import ZArith QArith Qround List Bool Lia Lra Permutation Sorted.
From Stdlib Require Import Reals Qreals.
Import ListNotations.

Set Implicit Arguments.

(** ** Outcomes of a call *)

Inductive outcome (A : Type) : Type :=
| Ret (a : A)
| Throws
| Undefined.

Arguments Ret {A} a.
Arguments Throws {A}.
Arguments Undefined {A}.

Definition bind {A B : Type} (c : outcome A) (k : A -> outcome B) : outcome B :=
  match c with
  | Ret a => k a
  | Throws => Throws
  | Undefined => Undefined
  end.

Declare Scope outcome_scope.
Delimit Scope outcome_scope with outcome.
Notation "x <- c ;; k" := (bind c (fun x => k))
  (at level 61, c at next level, right associativity) : outcome_scope.
Notation "' pat <- c ;; k" := (bind c (fun x => match x with pat => k end))
  (at level 61, pat pattern, c at next level, right associativity) : outcome_scope.

Definition returns {A : Type} (c : outcome A) : Prop := exists a, c = Ret a.

(** ** The rolling window: [ProgressBar::CircularBuffer<T>] *)

Module CircularBuffer.

Section Container.

Variable T : Type.

(** The two data members: [size_t m_max_size] and [std::deque<T> m_buffer]
    (front of the deque = head of the list). *)
Record t : Type := mk {
  m_max_size : nat;
  m_buffer : list T
}.

(** [explicit CircularBuffer(size_t size) : m_max_size(size) {}]: the body
    is empty, every size is accepted. *)
Definition construct (size : nat) : outcome t :=
  Ret {| m_max_size := size; m_buffer := [] |}.

Definition empty (cb : t) : bool :=
  match m_buffer cb with [] => true | _ :: _ => false end.

Definition size (cb : t) : nat := length (m_buffer cb).

Definition reset (cb : t) : t :=
  {| m_max_size := m_max_size cb; m_buffer := [] |}.

(** [std::deque::pop_front]: undefined on an empty deque. *)
Definition deque_pop_front (d : list T) : outcome (list T) :=
  match d with
  | [] => Undefined
  | _ :: rest => Ret rest
  end.

(** [push_back]: evict the front when [size() == m_max_size], then append. *)
Definition push_back (cb : t) (item : T) : outcome t :=
  (d <- (if Nat.eqb (length (m_buffer cb)) (m_max_size cb)
         then deque_pop_front (m_buffer cb)
         else Ret (m_buffer cb)) ;;
   Ret {| m_max_size := m_max_size cb; m_buffer := d ++ [item] |})%outcome.

Definition push (cb : t) (item : T) : outcome t := push_back cb item.

(** [pop_front]: [std::nullopt] on an empty buffer, else the front element,
    which is removed. *)
Definition pop_front (cb : t) : option T * t :=
  match m_buffer cb with
  | [] => (None, cb)
  | value :: rest => (Some value, {| m_max_size := m_max_size cb; m_buffer := rest |})
  end.

Definition pop (cb : t) : option T * t := pop_front cb.

(** A sequence of [push] calls, oldest first. *)
Fixpoint push_all (cb : t) (items : list T) : outcome t :=
  match items with
  | [] => Ret cb
  | item :: rest => (cb' <- push cb item ;; push_all cb' rest)%outcome
  end.

(** The last [n] elements of a list, in order. *)
Definition lastn (n : nat) (l : list T) : list T := skipn (length l - n) l.

(** The mutating operations of the interface, for runs of mixed calls. *)
Inductive op : Type :=
| Push (item : T)
| Pop
| Reset.

Definition apply_op (cb : t) (o : op) : outcome t :=
  match o with
  | Push item => push cb item
  | Pop => Ret (snd (pop cb))
  | Reset => Ret (reset cb)
  end.

Fixpoint apply_ops (cb : t) (ops : list op) : outcome t :=
  match ops with
  | [] => Ret cb
  | o :: rest => (cb' <- apply_op cb o ;; apply_ops cb' rest)%outcome
  end.

(** [n] calls of [pop], with the optionals they return in call order. *)
Fixpoint pop_n (n : nat) (cb : t) : list (option T) * t :=
  match n with
  | O => ([], cb)
  | S n' =>
      let (r, cb') := pop cb in
      let (rs, cb'') := pop_n n' cb' in
      (r :: rs, cb'')
  end.

End Container.

Arguments construct T size : clear implicits.
Arguments Pop {T}.
Arguments Reset {T}.

(** *** Statistics, for an arithmetic element type

    The element type is a signed integer type of [w] bits ([int] in the
    tests, [std::chrono::milliseconds::rep] in the estimator); its values
    are the integers accepted by [T_fits]. *)

Section Statistics.

Variable w : Z.

Definition T_fits (z : Z) : bool :=
  ((- 2 ^ (w - 1) <=? z) && (z <? 2 ^ (w - 1)))%Z.


(** [static_cast<double>(v)]. *)
Definition to_double (v : Z) : Q := inject_Z v.

(** [static_cast<double>(n)] for a [size_t] such as [m_buffer.size()]. *)
Definition size_to_double (n : nat) : Q := inject_Z (Z.of_nat n).

(** [std::reduce(first, last, 0.0)]: the sum of the elements, as a double. *)
Definition std_reduce (l : list Z) (init : Q) : Q :=
  fold_left (fun acc v => acc + to_double v) l init.





(** [*std::min_element(first, last)] on a non-empty range: the first
    smallest element. *)
Definition std_min_element (first : Z) (rest : list Z) : Z :=
  fold_left (fun best x => if (x <? best)%Z then x else best) rest first.

(** [*std::max_element(first, last)] on a non-empty range: the first
    largest element. *)
Definition std_max_element (first : Z) (rest : list Z) : Z :=
  fold_left (fun best x => if (best <? x)%Z then x else best) rest first.

Definition mean_local (cb : t Z) : option Q :=
  if empty cb then None
  else Some (std_reduce (m_buffer cb) 0 / size_to_double (size cb)).

Definition mean (cb : t Z) : option Q := mean_local cb.



Definition minimum_local (cb : t Z) : option Z :=
  match m_buffer cb with
  | [] => None
  | first :: rest => Some (std_min_element first rest)
  end.

Definition minimum (cb : t Z) : option Z := minimum_local cb.

Definition maximum_local (cb : t Z) : option Z :=
  match m_buffer cb with
  | [] => None
  | first :: rest => Some (std_max_element first rest)
  end.

Definition maximum (cb : t Z) : option Z := maximum_local cb.





End Statistics.

End CircularBuffer.

(** ** The progress bar and its ETC estimator *)

Module ProgressBar.

Local Open Scope Z_scope.

(** [std::numeric_limits<size_t>::max()]: the total of an indefinite bar. *)
Definition SIZE_MAX : Z := 2 ^ 64 - 1.

(** [std::chrono::milliseconds::max().count()]: "ETC is not applicable". *)
Definition UNAVAILABLE : Z := 2 ^ 63 - 1.

(** [std::numeric_limits<double>::max()]. *)
Definition DBL_MAX : Q := inject_Z ((2 ^ 53 - 1) * 2 ^ 971).

Definition CIRCULAR_BUFFER : Z := 10.
Definition UPDATE_INTERVAL : Z := 5.

(** Unsigned 64-bit wrap-around, and the conversion of an unsigned 64-bit
    value to [std::chrono::milliseconds::rep]. *)
Definition u64 (z : Z) : Z := z mod 2 ^ 64.
Definition s64 (z : Z) : Z := (z + 2 ^ 63) mod 2 ^ 64 - 2 ^ 63.

(** [uint8_t] wrap-around, for [++m_update_counter]. *)
Definition u8 (z : Z) : Z := z mod 2 ^ 8.

(** [std::chrono::duration_cast<std::chrono::milliseconds>(d).count()] for
    a duration in nanoseconds: truncation towards zero. *)
Definition duration_cast_ms (d : Z) : Z := Z.quot d 1000000.

(** Conversion of a [double] to [std::chrono::milliseconds::rep]: the
    fractional part is discarded; undefined when the result does not fit. *)
Definition Qtruncate (q : Q) : Z := Z.quot (Qnum q) (Zpos (Qden q)).

Definition double_to_rep (q : Q) : outcome Z :=
  let z := Qtruncate q in
  if CircularBuffer.T_fits 64 z then Ret z else Undefined.

(** [std::clamp(v, lo, hi)]. *)
Definition std_clamp (v lo hi : Z) : Z :=
  if v <? lo then lo else if hi <? v then hi else v.

(** The data members the estimator uses; the strings and the layout
    statics only feed the rendering. *)
Record t : Type := mk {
  m_total : Z;
  m_progress : Z;
  m_start_time : Z
}.


(** The constructor with a total. *)
Definition construct (total now : Z) : t :=
  {| m_total := total; m_progress := 0; m_start_time := now |}.

(** The [static] locals of [calculate_etc]. There is one copy of them in
    the program, whatever the number of bars. *)
Record statics : Type := mk_statics {
  m_delta_times : CircularBuffer.t Z;
  m_last_etc : Q;
  m_update_counter : Z;
  m_last_tick_time : Z
}.

(** [None]: control has not passed through the declarations yet. *)
Definition etc_state : Type := option statics.

(** The constructor argument of [m_delta_times]. *)
Definition delta_capacity (total : Z) : Z :=
  if 2 * CIRCULAR_BUFFER <? total then CIRCULAR_BUFFER else total / 2.

(** Initialisation of the statics, on the first passage, by the bar that
    makes the call. *)
Definition init_statics (pb : t) : outcome statics :=
  (cb <- CircularBuffer.construct Z (Z.to_nat (delta_capacity (m_total pb))) ;;
   Ret {| m_delta_times := cb;
          m_last_etc := DBL_MAX;
          m_update_counter := 0;
          m_last_tick_time := m_start_time pb |})%outcome.

(** [elapsed * (m_total - m_progress) / m_progress]: [elapsed] is converted
    to the unsigned type of the other operands. *)
Definition overall_etc (pb : t) (now : Z) : Z :=
  let elapsed := duration_cast_ms (now - m_start_time pb) in
  u64 (u64 elapsed * u64 (m_total pb - m_progress pb)) / m_progress pb.

(** Passing the declarations of the statics: initialised on the first
    passage only. *)
Definition init_or_current (pb : t) (st : etc_state) : outcome statics :=
  match st with
  | Some s => Ret s
  | None => init_statics pb
  end.

Definition calculate_etc (pb : t) (now : Z) (st : etc_state)
  : outcome (Z * etc_state) :=
  if (m_progress pb =? 0) || (m_total pb =? 0) then Ret (UNAVAILABLE, st)
  else
    (s <- init_or_current pb st ;;
     let overall := overall_etc pb now in
     if (m_update_counter s =? 0)
        || (Z.of_nat (CircularBuffer.size (m_delta_times s)) <? CIRCULAR_BUFFER)
     then
       Ret (s64 overall,
            Some {| m_delta_times := m_delta_times s;
                    m_last_etc := inject_Z overall;
                    m_update_counter := m_update_counter s;
                    m_last_tick_time := now |})
     else
       let counter := u8 (m_update_counter s + 1) in
       if counter mod UPDATE_INTERVAL =? 0 then
         let elapsed_since_last := duration_cast_ms (now - m_last_tick_time s) in
         (dt <- CircularBuffer.push (m_delta_times s) elapsed_since_last ;;
          let recent_avg_time :=
            match CircularBuffer.mean dt with Some m => m | None => 0%Q end in
          let recent_etc :=
            (recent_avg_time * (inject_Z (m_total pb) - inject_Z (m_progress pb))
             / inject_Z (m_progress pb))%Q in
          let combined_etc := ((inject_Z overall + recent_etc) * (1 # 2))%Q in
          r <- double_to_rep combined_etc ;;
          Ret (r,
               Some {| m_delta_times := dt;
                       m_last_etc := combined_etc;
                       m_update_counter := 0;
                       m_last_tick_time := now |}))
       else
         (r <- double_to_rep (m_last_etc s) ;;
          Ret (r,
               Some {| m_delta_times := m_delta_times s;
                       m_last_etc := m_last_etc s;
                       m_update_counter := counter;
                       m_last_tick_time := m_last_tick_time s |})))%outcome.

(** The path a call of [calculate_etc] takes, read off its conditions. *)
Inductive etc_path : Type :=
| Unavailable
| WarmUp
| BlendUpdate
| Cached.

Definition calculate_etc_path (pb : t) (st : etc_state) : etc_path :=
  if (m_progress pb =? 0) || (m_total pb =? 0) then Unavailable
  else
    match st with
    | None => WarmUp
    | Some s =>
        if (m_update_counter s =? 0)
           || (Z.of_nat (CircularBuffer.size (m_delta_times s)) <? CIRCULAR_BUFFER)
        then WarmUp
        else if u8 (m_update_counter s + 1) mod UPDATE_INTERVAL =? 0
             then BlendUpdate
             else Cached
    end.

Definition is_done (pb : t) : bool := m_total pb <=? m_progress pb.


(** [display]: what it does to the bar and to the estimator, and the ETC
    it shows ([None]: "ETC: N/A", no call of [calculate_etc]). The strings
    it builds are left out. *)
Definition display (pb : t) (now : Z) (st : etc_state)
  : outcome (t * etc_state * option Z) :=
  if negb (m_total pb =? 0) && negb (m_total pb =? SIZE_MAX) then
    let pb' := {| m_total := m_total pb;
                  m_progress := std_clamp (m_progress pb) 0 (m_total pb);
                  m_start_time := m_start_time pb |} in
    ('(etc, st') <- calculate_etc pb' now st ;;
     Ret (pb', st', Some etc))%outcome
  else Ret (pb, st, None).

Definition tick (pb : t) (now : Z) (st : etc_state)
  : outcome (t * etc_state * option Z) :=
  let pb' :=
    if (m_total pb =? SIZE_MAX) || negb (is_done pb)
    then {| m_total := m_total pb;
            m_progress := u64 (m_progress pb + 1);
            m_start_time := m_start_time pb |}
    else pb in
  display pb' now st.

Definition update (pb : t) (now : Z) (st : etc_state)
  : outcome (t * etc_state * option Z) := tick pb now st.

(** [update] called once per clock reading, oldest first. *)
Fixpoint updates (pb : t) (st : etc_state) (clock : list Z)
  : outcome (t * etc_state) :=
  match clock with
  | [] => Ret (pb, st)
  | now :: later =>
      ('(pb', st', _) <- update pb now st ;; updates pb' st' later)%outcome
  end.

(** A sequence of [calculate_etc] calls, each by some bar at some time, on
    the one copy of the statics; the returned values in call order. *)
Fixpoint calculate_etc_calls (calls : list (t * Z)) (st : etc_state)
  : outcome (list Z * etc_state) :=
  match calls with
  | [] => Ret ([], st)
  | (pb, now) :: later =>
      ('(etc, st') <- calculate_etc pb now st ;;
       '(etcs, st'') <- calculate_etc_calls later st' ;;
       Ret (etc :: etcs, st''))%outcome
  end.


(** The states of the statics a program can be in: it starts with the
    statics not initialised, and only [calculate_etc] touches them. *)
Inductive reachable : etc_state -> Prop :=
| reachable_start : reachable None
| reachable_call : forall pb now st etc st',
    reachable st -> calculate_etc pb now st = Ret (etc, st') -> reachable st'.

(** The statics before any blend update: the counter is zero and nothing
    was pushed into the window. *)
Definition warming (st : etc_state) : Prop :=
  match st with
  | None => True
  | Some s => m_update_counter s = 0 /\ CircularBuffer.m_buffer (m_delta_times s) = []
  end.

(** Clock readings of [n] calls, one every 100 ms after the start at 0. *)
Definition every_100ms (n : nat) : list Z :=
  map (fun i => Z.of_nat i * 100000000) (seq 1 n).

(** Bars used as examples below: 3 of 10 units done; an indefinite bar with
    one unit done; one unit done of a total of 100, of 4 and of 1. *)
Definition bar_3_of_10 : t := {| m_total := 10; m_progress := 3; m_start_time := 0 |}.
Definition bar_1_of_100 : t := {| m_total := 100; m_progress := 1; m_start_time := 0 |}.
Definition bar_1_of_4 : t := {| m_total := 4; m_progress := 1; m_start_time := 0 |}.
Definition bar_1_of_1 : t := {| m_total := 1; m_progress := 1; m_start_time := 0 |}.

(** *** Formatting a time: the duration arithmetic of [append_time] *)

Definition SECONDS_PER_DAY : Z := 86400.

Record time_parts : Type := mk_time_parts {
  days_duration : Z;
  hours_duration : Z;
  minutes_duration : Z;
  seconds_duration : Z;
  milliseconds_duration : Z
}.

(** The five [duration_cast]s (each truncates towards zero) and the four
    [total_duration -= ...] between them; every field is the [count()]. *)
Definition split_time (time : Z) : time_parts :=
  let total_duration := time in
  let days := Z.quot total_duration (SECONDS_PER_DAY * 1000) in
  let total_duration := total_duration - days * (SECONDS_PER_DAY * 1000) in
  let hours := Z.quot total_duration 3600000 in
  let total_duration := total_duration - hours * 3600000 in
  let minutes := Z.quot total_duration 60000 in
  let total_duration := total_duration - minutes * 60000 in
  let seconds := Z.quot total_duration 1000 in
  let total_duration := total_duration - seconds * 1000 in
  {| days_duration := days;
     hours_duration := hours;
     minutes_duration := minutes;
     seconds_duration := seconds;
     milliseconds_duration := total_duration |}.

(** Which fields the stream variant of [append_time] writes: the seconds
    always, a coarser field when it or a still coarser one is positive, the
    milliseconds when they are positive. *)
Record time_fields : Type := mk_time_fields {
  shows_days : bool;
  shows_hours : bool;
  shows_minutes : bool;
  shows_milliseconds : bool
}.

Definition fields_written (parts : time_parts) : time_fields :=
  {| shows_days := 0 <? days_duration parts;
     shows_hours := (0 <? days_duration parts) || (0 <? hours_duration parts);
     shows_minutes := (0 <? days_duration parts) || (0 <? hours_duration parts)
                      || (0 <? minutes_duration parts);
     shows_milliseconds := 0 <? milliseconds_duration parts |}.

(** [calculate_elapsed]. *)
Definition calculate_elapsed (pb : t) (now : Z) : Z :=
  duration_cast_ms (now - m_start_time pb).

(** *** The layout statics and [calculate_bar] *)

Definition DEFAULT_WIDTH : Z := 30.
Definition MIN_BAR_LENGTH : Z := 15.

(** The four [static size_t] members, zero until [calculate_bar] runs. *)
Record layout : Type := mk_layout {
  m_available_width : Z;
  m_name_length : Z;
  m_spaces_after_bar : Z;
  m_bar_length : Z
}.


Section Layout.

(** [static_cast<size_t>(m_available_width * BAR_PERCENTAGE)]: a product in
    single precision, kept abstract. *)
Variable scale_by_BAR_PERCENTAGE : Z -> Z.

(** Whether the formatting library is compiled in ([HAVE_FMT]). *)
Variable have_fmt : bool.

(** [calculate_bar], for the width [get_terminal_width] returned. *)
Definition calculate_bar (terminal_width : Z) (lay : layout) : layout :=
  let fixed_characters := 10 in
  let ansi_sequences := 14 in
  let fixed_and_name_characters := u64 (m_name_length lay + fixed_characters) in
  let available :=
    u64 (u64 (terminal_width - fixed_and_name_characters) - ansi_sequences) in
  let bar := scale_by_BAR_PERCENTAGE available in
  let bar := Z.max bar MIN_BAR_LENGTH in
  let bar := if bar mod 2 =? 0 then bar else u64 (bar - 1) in
  {| m_available_width := available;
     m_name_length := m_name_length lay;
     m_spaces_after_bar :=
       if have_fmt then u64 (available - bar) else m_spaces_after_bar lay;
     m_bar_length := bar |}.

(** [initializer], without the registration of the signal handler. *)
Definition initializer (name_length terminal_width : Z) (lay : layout) : layout :=
  calculate_bar terminal_width
    {| m_available_width := m_available_width lay;
       m_name_length := name_length;
       m_spaces_after_bar := m_spaces_after_bar lay;
       m_bar_length := m_bar_length lay |}.

End Layout.


End ProgressBar.

(** ** Reference statistics

    The statistics as the specification defines them, on a list of samples:
    the arithmetic mean and the population variance ("divide by N, not
    N-1"). The code is compared with them below. *)

Module Reference.








(** A window built by pushing [vs] into a fresh window of capacity [c]. *)
Definition window (c : nat) (vs : list Z) : outcome (CircularBuffer.t Z) :=
  (cb <- CircularBuffer.construct Z c ;; CircularBuffer.push_all cb vs)%outcome.


(** The state of the statics in which the blend update would be due: ten
    samples in a window of capacity ten, four calls since the last update. *)
Definition steady_statics : ProgressBar.statics :=
  {| ProgressBar.m_delta_times :=
       {| CircularBuffer.m_max_size := 10;
          CircularBuffer.m_buffer :=
            [100; 100; 100; 100; 100; 100; 100; 100; 100; 100]%Z |};
     ProgressBar.m_last_etc := 5000;
     ProgressBar.m_update_counter := 4;
     ProgressBar.m_last_tick_time := 5000000000 |}.

End Reference.

(** * Properties of the rolling window *)

Unset Implicit Arguments.

Module CircularBufferFacts.

Import CircularBuffer.

Section ContainerFacts.

Variable T : Type.

Implicit Types (cb : t T) (l vs : list T).

Lemma tl_skipn : forall (k : nat) l, tl (skipn k l) = skipn (S k) l.
Proof.
  induction k as [|k IH]; intros [|x l]; simpl; auto.
Qed.

Lemma lastn_length : forall (n : nat) l, length (lastn n l) = Nat.min (length l) n.
Proof. intros n l. unfold lastn. rewrite length_skipn. lia. Qed.

Lemma lastn_all : forall (n : nat) l, (length l <= n)%nat -> lastn n l = l.
Proof.
  intros n l H. unfold lastn.
  replace (length l - n)%nat with 0%nat by lia. reflexivity.
Qed.

(** One [push] on a window that holds the last [c] elements of the
    history [pre]. *)
Lemma push_lastn : forall (c : nat) pre (x : T),
  (1 <= c)%nat ->
  push {| m_max_size := c; m_buffer := lastn c pre |} x
  = Ret {| m_max_size := c; m_buffer := lastn c (pre ++ [x]) |}.
Proof.
  intros c pre x Hc. unfold push, push_back. cbn [m_buffer m_max_size].
  rewrite lastn_length.
  destruct (Nat.eqb (Nat.min (length pre) c) c) eqn:E.
  - apply Nat.eqb_eq in E.
    assert (Hlen : (c <= length pre)%nat) by lia.
    unfold lastn at 1.
    destruct (skipn (length pre - c) pre) as [|y rest] eqn:Es.
    + apply (f_equal (@length T)) in Es. rewrite length_skipn in Es.
      simpl in Es. lia.
    + cbn. do 2 f_equal. unfold lastn. rewrite length_app. simpl.
      replace (length pre + 1 - c)%nat with (S (length pre - c)) by lia.
      rewrite skipn_app, <- tl_skipn, Es.
      replace (S (length pre - c) - length pre)%nat with 0%nat by lia.
      reflexivity.
  - apply Nat.eqb_neq in E.
    assert (Hlen : (length pre < c)%nat) by lia.
    cbn. do 2 f_equal.
    rewrite !lastn_all; auto; rewrite ?length_app; simpl; lia.
Qed.

Lemma push_all_lastn : forall vs (c : nat) pre,
  (1 <= c)%nat ->
  push_all {| m_max_size := c; m_buffer := lastn c pre |} vs
  = Ret {| m_max_size := c; m_buffer := lastn c (pre ++ vs) |}.
Proof.
  induction vs as [|v vs IH]; intros c pre Hc; simpl.
  - now rewrite app_nil_r.
  - rewrite push_lastn by assumption. simpl.
    rewrite IH by assumption. now rewrite <- app_assoc.
Qed.

(** With a capacity of at least one, [push] is defined on every window. *)
Lemma push_returns : forall cb (x : T),
  (1 <= m_max_size cb)%nat -> returns (push cb x).
Proof.
  intros [c l] x Hc. unfold returns, push, push_back. simpl in *.
  destruct (Nat.eqb (length l) c) eqn:E.
  - apply Nat.eqb_eq in E. destruct l as [|y l]; simpl in *; [lia|].
    eexists; reflexivity.
  - eexists; reflexivity.
Qed.


End ContainerFacts.

End CircularBufferFacts.

(** * Properties of the statistics *)

Module StatisticsFacts.

Import CircularBuffer Reference.

Implicit Types (l : list Z) (cb : t Z).

(** *** Extremal elements *)

Lemma std_min_element_spec : forall rest first,
  let m := std_min_element first rest in
  In m (first :: rest) /\ Forall (fun x => (m <= x)%Z) (first :: rest).
Proof.
  unfold std_min_element.
  induction rest as [|x rest IH]; intros first; simpl.
  - split; [now left | constructor; [lia | constructor]].
  - specialize (IH (if (x <? first)%Z then x else first)).
    cbv zeta in IH. destruct IH as [Hin Hall].
    destruct (Z.ltb_spec x first) as [Hlt | Hge].
    + split.
      * simpl in Hin. destruct Hin as [<- | Hin]; [right; now left | right; now right].
      * inversion Hall as [|? ? Hx Hrest]; subst.
        constructor; [lia | constructor; assumption].
    + split.
      * simpl in Hin. destruct Hin as [<- | Hin]; [now left | right; now right].
      * inversion Hall as [|? ? Hx Hrest]; subst.
        constructor; [assumption | constructor; [lia | assumption]].
Qed.

Lemma std_max_element_spec : forall rest first,
  let m := std_max_element first rest in
  In m (first :: rest) /\ Forall (fun x => (x <= m)%Z) (first :: rest).
Proof.
  unfold std_max_element.
  induction rest as [|x rest IH]; intros first; simpl.
  - split; [now left | constructor; [lia | constructor]].
  - specialize (IH (if (first <? x)%Z then x else first)).
    cbv zeta in IH. destruct IH as [Hin Hall].
    destruct (Z.ltb_spec first x) as [Hlt | Hge].
    + split.
      * simpl in Hin. destruct Hin as [<- | Hin]; [right; now left | right; now right].
      * inversion Hall as [|? ? Hx Hrest]; subst.
        constructor; [lia | constructor; assumption].
    + split.
      * simpl in Hin. destruct Hin as [<- | Hin]; [now left | right; now right].
      * inversion Hall as [|? ? Hx Hrest]; subst.
        constructor; [assumption | constructor; [lia | assumption]].
Qed.

Lemma minimum_spec : forall cb,
  m_buffer cb <> [] ->
  exists m, minimum cb = Some m /\ In m (m_buffer cb)
            /\ Forall (fun x => (m <= x)%Z) (m_buffer cb).
Proof.
  intros [c [|first rest]] Hne; simpl in *; [congruence|].
  exists (std_min_element first rest). split; [reflexivity|].
  apply std_min_element_spec.
Qed.

Lemma maximum_spec : forall cb,
  m_buffer cb <> [] ->
  exists m, maximum cb = Some m /\ In m (m_buffer cb)
            /\ Forall (fun x => (x <= m)%Z) (m_buffer cb).
Proof.
  intros [c [|first rest]] Hne; simpl in *; [congruence|].
  exists (std_max_element first rest). split; [reflexivity|].
  apply std_max_element_spec.
Qed.

(** *** The sorted copy *)







(** *** The median *)





(** *** Sums, the mean and the variance *)










End StatisticsFacts.

(** * The claims about the rolling window *)

Module RollingWindow.

Import CircularBuffer Reference CircularBufferFacts StatisticsFacts.

Lemma window_lastn : forall (c : nat) (vs : list Z),
  (1 <= c)%nat ->
  window c vs = Ret {| m_max_size := c; m_buffer := lastn c vs |}.
Proof.
  intros c vs Hc. unfold window, construct. cbn [bind].
  change (@nil Z) with (lastn c (@nil Z)) at 1.
  now rewrite push_all_lastn.
Qed.

(** C4. For every capacity [c >= 1] and every sequence [vs] of [N] pushes
    into a fresh window: the pushes are all defined; if [N <= c] the window
    has size [N] and holds exactly [vs]; if [N > c] it has size [c] and
    holds exactly the last [c] pushed values, in arrival order ([vs] is the
    evicted values followed by the window); and [minimum()] and [maximum()]
    are the least and the greatest of the retained values only. *)
Theorem push_retains_last_capacity (c : nat) (vs : list Z) (Hc : (1 <= c)%nat) :
  exists cb,
    window c vs = Ret cb
    /\ m_max_size cb = c
    /\ ((length vs <= c)%nat -> size cb = length vs /\ m_buffer cb = vs)
    /\ ((c < length vs)%nat ->
        size cb = c
        /\ m_buffer cb = skipn (length vs - c) vs
        /\ exists evicted, vs = evicted ++ m_buffer cb
                           /\ length evicted = (length vs - c)%nat)
    /\ (vs <> [] ->
        exists lo hi,
          minimum cb = Some lo /\ maximum cb = Some hi
          /\ In lo (m_buffer cb) /\ In hi (m_buffer cb)
          /\ Forall (fun x => (lo <= x <= hi)%Z) (m_buffer cb)).
Proof.
  exists {| m_max_size := c; m_buffer := lastn c vs |}.
  split; [now apply window_lastn|].
  split; [reflexivity|].
  unfold size. cbn [m_buffer]. split; [|split].
  - intros Hle. rewrite lastn_all by assumption. now split.
  - intros Hlt. rewrite lastn_length. split; [lia|]. split; [reflexivity|].
    exists (firstn (length vs - c) vs). unfold lastn. split.
    + symmetry. apply firstn_skipn.
    + rewrite length_firstn. lia.
  - intros Hne.
    assert (Hne' : lastn c vs <> []).
    { intros E. apply (f_equal (@length Z)) in E. rewrite lastn_length in E.
      destruct vs; [congruence | cbn [length] in E; lia]. }
    destruct (minimum_spec {| m_max_size := c; m_buffer := lastn c vs |} Hne')
      as (lo & Hlo & Hinlo & Halllo).
    destruct (maximum_spec {| m_max_size := c; m_buffer := lastn c vs |} Hne')
      as (hi & Hhi & Hinhi & Hallhi).
    exists lo, hi. cbn [m_buffer] in *. repeat split; try assumption.
    rewrite Forall_forall in *. intros x Hx. split; auto.
Qed.

(** The overflow test of the repository: capacity 3, pushes 1, 2, 3, 4. *)
Lemma push_retains_last_capacity_witness :
  exists cb, window 3 [1; 2; 3; 4]%Z = Ret cb
             /\ m_buffer cb = [2; 3; 4]%Z /\ size cb = 3%nat
             /\ minimum cb = Some 2%Z.
Proof.
  destruct (@push_retains_last_capacity 3 [1; 2; 3; 4]%Z) as (cb & Hw & _ & _ & Hgt & _).
  - repeat constructor.
  - destruct Hgt as (Hsize & Hbuf & _); [simpl; repeat constructor|].
    exists cb. repeat split; try assumption.
    destruct cb as [c l]. simpl in Hbuf. subst l. reflexivity.
Defined.







End RollingWindow.

(** * Properties of the estimator *)

Module EstimatorFacts.

Import ProgressBar.

Local Open Scope Z_scope.

Implicit Types (pb : t) (st : etc_state) (s : statics).

Lemma guard_true : forall pb,
  (m_progress pb =? 0) || (m_total pb =? 0) = true <->
  m_progress pb = 0 \/ m_total pb = 0.
Proof. intros pb. rewrite orb_true_iff, !Z.eqb_eq. tauto. Qed.

Lemma guard_false : forall pb,
  (m_progress pb =? 0) || (m_total pb =? 0) = false <->
  m_progress pb <> 0 /\ m_total pb <> 0.
Proof. intros pb. rewrite orb_false_iff, !Z.eqb_neq. tauto. Qed.

(** Case analysis on the three tests of [calculate_etc]. *)
Ltac etc_tests pb s :=
  destruct ((m_progress pb =? 0) || (m_total pb =? 0)) eqn:?;
  [| destruct ((m_update_counter s =? 0)
               || (Z.of_nat (CircularBuffer.size (m_delta_times s))
                   <? CIRCULAR_BUFFER)) eqn:?;
     [| destruct (u8 (m_update_counter s + 1) mod UPDATE_INTERVAL =? 0) eqn:?]].

Lemma path_unavailable : forall pb st,
  calculate_etc_path pb st = Unavailable <-> m_progress pb = 0 \/ m_total pb = 0.
Proof.
  intros pb st. rewrite <- guard_true. unfold calculate_etc_path.
  destruct st as [s|].
  - etc_tests pb s; split; intros; congruence.
  - destruct ((m_progress pb =? 0) || (m_total pb =? 0)); split; intros; congruence.
Qed.

Lemma path_warm_up_start : forall pb,
  m_progress pb <> 0 -> m_total pb <> 0 -> calculate_etc_path pb None = WarmUp.
Proof.
  intros pb Hp Ht. unfold calculate_etc_path.
  assert (Hg : (m_progress pb =? 0) || (m_total pb =? 0) = false)
    by (apply guard_false; now split).
  now rewrite Hg.
Qed.

(** The early return: the statics are not even initialised. *)
Lemma calculate_etc_unavailable : forall pb now st,
  m_progress pb = 0 \/ m_total pb = 0 ->
  calculate_etc pb now st = Ret (UNAVAILABLE, st).
Proof.
  intros pb now st H. unfold calculate_etc.
  apply guard_true in H. now rewrite H.
Qed.

(** The warm-up return. *)
Lemma calculate_etc_warm_up : forall pb now st,
  calculate_etc_path pb st = WarmUp ->
  exists s s',
    init_or_current pb st = Ret s
    /\ calculate_etc pb now st = Ret (s64 (overall_etc pb now), Some s')
    /\ s' = {| m_delta_times := m_delta_times s;
               m_last_etc := inject_Z (overall_etc pb now);
               m_update_counter := m_update_counter s;
               m_last_tick_time := now |}.
Proof.
  intros pb now st. unfold calculate_etc_path, calculate_etc, init_or_current.
  destruct st as [s|].
  - cbn [bind]. etc_tests pb s; try discriminate.
    intros _. eexists s, _. repeat split.
  - destruct ((m_progress pb =? 0) || (m_total pb =? 0)); [discriminate|].
    intros _. unfold init_statics, CircularBuffer.construct. cbn.
    eexists _, _. repeat split.
Qed.

(** Before any blend update a call can only leave by the early return or by
    the warm-up return. *)
Lemma warming_path : forall pb st,
  warming st ->
  calculate_etc_path pb st = Unavailable \/ calculate_etc_path pb st = WarmUp.
Proof.
  intros pb st Hw. unfold calculate_etc_path.
  destruct ((m_progress pb =? 0) || (m_total pb =? 0)); [now left|].
  destruct st as [s|]; [|now right].
  destruct Hw as [Hc _]. rewrite Hc. now right.
Qed.

Lemma calculate_etc_warming : forall pb now st,
  warming st ->
  exists etc st',
    calculate_etc pb now st = Ret (etc, st')
    /\ warming st'
    /\ (etc = UNAVAILABLE \/ etc = s64 (overall_etc pb now)).
Proof.
  intros pb now st Hw.
  destruct (warming_path pb st Hw) as [Hp | Hp].
  - exists UNAVAILABLE, st. split; [|split; [assumption | now left]].
    apply calculate_etc_unavailable. now apply (path_unavailable pb st).
  - destruct (calculate_etc_warm_up pb now st Hp) as (s & s' & Hs & Hcall & ->).
    eexists _, _. split; [exact Hcall|]. split; [|now right].
    cbn [warming m_update_counter m_delta_times].
    destruct st as [s0|]; cbn [init_or_current] in Hs.
    + injection Hs as <-. exact Hw.
    + unfold init_statics, CircularBuffer.construct in Hs. cbn [bind] in Hs.
      injection Hs as <-. now split.
Qed.

Lemma reachable_warming : forall st, reachable st -> warming st.
Proof.
  induction 1 as [|pb now st etc st' _ IH Hcall]; [exact I|].
  destruct (calculate_etc_warming pb now st IH) as (etc0 & st0 & Hcall0 & Hw & _).
  rewrite Hcall0 in Hcall. injection Hcall as _ <-. exact Hw.
Qed.

Lemma calculate_etc_calls_warming : forall calls st,
  warming st ->
  exists etcs st',
    calculate_etc_calls calls st = Ret (etcs, st')
    /\ warming st'
    /\ Forall2 (fun call etc =>
                  etc = UNAVAILABLE \/ etc = s64 (overall_etc (fst call) (snd call)))
         calls etcs.
Proof.
  induction calls as [|[pb now] calls IH]; intros st Hw.
  - exists [], st. repeat split; [assumption | constructor].
  - destruct (calculate_etc_warming pb now st Hw) as (etc & st1 & Hcall & Hw1 & Hetc).
    destruct (IH st1 Hw1) as (etcs & st2 & Hcalls & Hw2 & Hall).
    exists (etc :: etcs), st2. cbn [calculate_etc_calls].
    rewrite Hcall. cbn [bind]. rewrite Hcalls. cbn [bind].
    repeat split; [assumption|]. constructor; assumption.
Qed.

Lemma calculate_etc_calls_reachable : forall calls st etcs st',
  reachable st -> calculate_etc_calls calls st = Ret (etcs, st') -> reachable st'.
Proof.
  induction calls as [|[pb now] calls IH]; intros st etcs st' Hr Hcalls.
  - cbn in Hcalls. injection Hcalls as _ <-. exact Hr.
  - cbn [calculate_etc_calls] in Hcalls.
    destruct (calculate_etc pb now st) as [[etc st1]| |] eqn:Hcall; try discriminate.
    cbn [bind] in Hcalls.
    destruct (calculate_etc_calls calls st1) as [[etcs1 st2]| |] eqn:Hrest;
      try discriminate.
    cbn [bind] in Hcalls. injection Hcalls as _ <-.
    eapply IH; [|exact Hrest]. econstructor; eassumption.
Qed.


Lemma calculate_etc_cached : forall pb now s,
  calculate_etc_path pb (Some s) = Cached ->
  calculate_etc pb now (Some s)
  = (r <- double_to_rep (m_last_etc s) ;;
     Ret (r, Some {| m_delta_times := m_delta_times s;
                     m_last_etc := m_last_etc s;
                     m_update_counter := u8 (m_update_counter s + 1);
                     m_last_tick_time := m_last_tick_time s |}))%outcome.
Proof.
  intros pb now s. unfold calculate_etc_path, calculate_etc.
  cbn [init_or_current bind]. etc_tests pb s; try discriminate.
  reflexivity.
Qed.

(** *** Ticks on a bounded bar *)





(** *** The window capacity *)

Lemma delta_capacity_min : forall total,
  delta_capacity total = Z.min 10 (total / 2).
Proof.
  intros total. unfold delta_capacity, CIRCULAR_BUFFER.
  destruct (Z.ltb_spec (2 * 10) total) as [H | H].
  - assert (10 <= total / 2) by (apply Z.div_le_lower_bound; lia). lia.
  - assert (total / 2 <= 10) by (apply Z.div_le_upper_bound; lia). lia.
Qed.

End EstimatorFacts.

(** * The claims about the estimator *)

Module Estimator.

Import ProgressBar EstimatorFacts.

Local Open Scope Z_scope.

Implicit Types (pb : t) (st : etc_state) (s : statics).

(** C1 (the code departs from the claim). Whatever calls of
    [calculate_etc] a program makes, by whatever bars and at whatever times,
    all of them return; each returns the sentinel or the warm-up estimate;
    the update counter is still zero and the delta window still empty
    afterwards; and so the next call cannot take the blend-update path nor
    the cached path either: the steady state is never reached. *)
Theorem blend_update_never_reached :
  forall calls : list (t * Z),
  exists etcs st,
    calculate_etc_calls calls None = Ret (etcs, st)
    /\ warming st
    /\ Forall2 (fun call etc =>
                  etc = UNAVAILABLE \/ etc = s64 (overall_etc (fst call) (snd call)))
         calls etcs
    /\ forall pb, calculate_etc_path pb st <> BlendUpdate
                  /\ calculate_etc_path pb st <> Cached.
Proof.
  intros calls.
  destruct (calculate_etc_calls_warming calls None I) as (etcs & st & Hcalls & Hw & Hall).
  exists etcs, st. split; [assumption|]. split; [assumption|]. split; [assumption|].
  intros pb. destruct (warming_path pb st Hw) as [Hp | Hp]; rewrite Hp;
    split; discriminate.
Qed.

(** The same on a bar of total 100 that is updated every 100 ms until it is
    done: the window capacity is 10, and after the hundred updates the
    counter is zero and the window is empty. *)
Lemma blend_update_missing_total_100 :
  exists pb s,
    updates (construct 100 0) None (every_100ms 100) = Ret (pb, Some s)
    /\ m_progress pb = 100
    /\ CircularBuffer.m_max_size (m_delta_times s) = 10%nat
    /\ CircularBuffer.m_buffer (m_delta_times s) = []
    /\ m_update_counter s = 0.
Proof. vm_compute. eexists _, _. repeat split. Qed.









(** C6 (as the code has it). The estimator state is the one set of statics
    of [calculate_etc], shared by all bars of the program: the first call
    with a non-zero progress and total initialises it, with a window
    capacity derived from the total of the bar making that call; every later
    call, by any bar, starts from the state the previous call left, keeps
    that window and its capacity, and overwrites [last_etc] and
    [last_tick_time]. *)
Theorem estimator_statics_are_shared :
  (forall pbA nowA,
     m_progress pbA <> 0 -> m_total pbA <> 0 ->
     exists s,
       calculate_etc pbA nowA None = Ret (s64 (overall_etc pbA nowA), Some s)
       /\ CircularBuffer.m_max_size (m_delta_times s)
          = Z.to_nat (delta_capacity (m_total pbA)))
  /\ (forall calls etcs s pbB nowB,
        calculate_etc_calls calls None = Ret (etcs, Some s) ->
        m_progress pbB <> 0 -> m_total pbB <> 0 ->
        exists s',
          calculate_etc_calls (calls ++ [(pbB, nowB)]) None
          = Ret (etcs ++ [s64 (overall_etc pbB nowB)], Some s')
          /\ m_delta_times s' = m_delta_times s
          /\ m_last_tick_time s' = nowB
          /\ m_last_etc s' = inject_Z (overall_etc pbB nowB)).
Proof.
  split.
  - intros pbA nowA Hp Ht.
    pose proof (path_warm_up_start pbA Hp Ht) as Hpath.
    destruct (calculate_etc_warm_up pbA nowA None Hpath) as (s & s' & Hs & Hcall & ->).
    eexists. split; [exact Hcall|].
    cbn [m_delta_times]. cbn in Hs. injection Hs as <-. reflexivity.
  - intros calls etcs s pbB nowB Hcalls Hp Ht.
    assert (Hr : reachable (Some s)).
    { eapply calculate_etc_calls_reachable; [constructor | exact Hcalls]. }
    pose proof (reachable_warming _ Hr) as Hw.
    assert (Hpath : calculate_etc_path pbB (Some s) = WarmUp).
    { destruct (warming_path pbB (Some s) Hw) as [Hu | Hu]; [|exact Hu].
      apply path_unavailable in Hu. tauto. }
    destruct (calculate_etc_warm_up pbB nowB (Some s) Hpath)
      as (s0 & s' & Hs & Hcall & ->).
    cbn in Hs. injection Hs as <-.
    exists {| m_delta_times := m_delta_times s;
              m_last_etc := inject_Z (overall_etc pbB nowB);
              m_update_counter := m_update_counter s;
              m_last_tick_time := nowB |}.
    split; [|cbn [m_delta_times m_last_tick_time m_last_etc]; repeat split].
    clear Hr Hw Hpath. revert etcs Hcalls.
    generalize (@None statics) as st0.
    induction calls as [|[pb now] calls IH]; intros st0 etcs Hcalls.
    + cbn in Hcalls. injection Hcalls as <- ->. cbn [app calculate_etc_calls].
      rewrite Hcall. reflexivity.
    + cbn [app calculate_etc_calls] in *.
      destruct (calculate_etc pb now st0) as [[etc st1]| |]; try discriminate.
      cbn [bind] in *.
      destruct (calculate_etc_calls calls st1) as [[etcs1 st2]| |] eqn:Hrest;
        try discriminate.
      cbn [bind] in Hcalls. injection Hcalls as <- ->.
      rewrite (IH st1 etcs1 Hrest). reflexivity.
Qed.

Lemma estimator_statics_are_shared_witness :
  exists s,
    calculate_etc bar_1_of_100 1000000 None = Ret (99, Some s)
    /\ CircularBuffer.m_max_size (m_delta_times s) = 10%nat.
Proof.
  destruct (proj1 estimator_statics_are_shared bar_1_of_100 1000000)
    as (s & Hcall & Hcap); [discriminate | discriminate |].
  exists s. split; [exact Hcall | exact Hcap].
Defined.

(** C6 as it is claimed fails: a bar of total 100 makes the first call and a
    bar of total 4 the second. The second call starts from the state the
    first one left, overwrites its [last_tick_time], and works with a window
    of capacity 10, where the capacity derived from its own total is 2. *)
Lemma second_bar_uses_first_bars_window :
  exists sA sB,
    calculate_etc bar_1_of_100 1000000 None = Ret (99, Some sA)
    /\ calculate_etc bar_1_of_4 2000000 (Some sA) = Ret (6, Some sB)
    /\ m_last_tick_time sA = 1000000
    /\ m_last_tick_time sB = 2000000
    /\ CircularBuffer.m_max_size (m_delta_times sB) = 10%nat
    /\ Z.to_nat (delta_capacity (m_total bar_1_of_4)) = 2%nat.
Proof.
  eexists _, _. split; [reflexivity|]. split; [reflexivity|].
  repeat split.
Qed.

(** C7 (as the code has it). The constructor of the window accepts every
    size, zero included. The capacity of the delta window is
    [min(10, total / 2)], the division being the integer one, and so it is
    at least one exactly when the total is at least two. [push] is defined
    on every window of capacity at least one; on the empty window of
    capacity zero it is undefined. *)
Theorem delta_capacity_is_min_10_half_total :
  (forall (T : Type) (size : nat),
     CircularBuffer.construct T size
     = Ret {| CircularBuffer.m_max_size := size; CircularBuffer.m_buffer := [] |})
  /\ (forall total,
        delta_capacity total = Z.min 10 (total / 2)
        /\ (1 <= delta_capacity total <-> 2 <= total))
  /\ (forall (T : Type) (cb : CircularBuffer.t T) (item : T),
        (1 <= CircularBuffer.m_max_size cb)%nat ->
        returns (CircularBuffer.push cb item))
  /\ (forall (T : Type) (item : T),
        CircularBuffer.push
          {| CircularBuffer.m_max_size := 0; CircularBuffer.m_buffer := [] |} item
        = Undefined).
Proof.
  split; [|split; [|split]].
  - reflexivity.
  - intros total. rewrite delta_capacity_min. split; [reflexivity|].
    split; intros H.
    + destruct (Z.lt_ge_cases total 2) as [Hlt | Hge]; [|exact Hge].
      assert (total / 2 < 1) by (apply Z.div_lt_upper_bound; lia). lia.
    + assert (1 <= total / 2) by (apply Z.div_le_lower_bound; lia). lia.
  - intros T cb item Hc. now apply CircularBufferFacts.push_returns.
  - reflexivity.
Qed.

Lemma delta_capacity_is_min_10_half_total_witness :
  returns (CircularBuffer.push
             {| CircularBuffer.m_max_size := 2; CircularBuffer.m_buffer := [5; 7] |} 9).
Proof.
  apply (proj1 (proj2 (proj2 delta_capacity_is_min_10_half_total))).
  cbn. repeat constructor.
Defined.

(** C7 as it is claimed fails: a window of capacity zero is constructed, no
    rejection; for a bar of total 1 the delta window gets capacity
    [1 / 2 = 0]; and a push into that window is undefined. *)
Lemma zero_capacity_window_is_constructed :
  CircularBuffer.construct Z 0
  = Ret {| CircularBuffer.m_max_size := 0; CircularBuffer.m_buffer := [] |}
  /\ delta_capacity 1 = 0
  /\ (exists etc s,
        calculate_etc bar_1_of_1 1000000 None = Ret (etc, Some s)
        /\ CircularBuffer.m_max_size (m_delta_times s) = 0%nat
        /\ CircularBuffer.push (m_delta_times s) 100 = Undefined).
Proof.
  split; [reflexivity|]. split; [reflexivity|].
  eexists _, _. split; [reflexivity|]. split; reflexivity.
Qed.

End Estimator.

(** * Further properties of the rolling window *)

Module WindowExtras.

Import CircularBuffer Reference CircularBufferFacts StatisticsFacts.

Section Operations.

Variable T : Type.

Implicit Types (cb : t T) (l vs : list T).

Lemma push_within_capacity : forall cb (x : T),
  (1 <= m_max_size cb)%nat -> (size cb <= m_max_size cb)%nat ->
  exists cb', push cb x = Ret cb'
              /\ m_max_size cb' = m_max_size cb
              /\ size cb' = Nat.min (S (size cb)) (m_max_size cb).
Proof.
  intros [c l] x Hc Hs. unfold push, push_back, size in *. cbn [m_buffer m_max_size] in *.
  destruct (Nat.eqb (length l) c) eqn:E.
  - apply Nat.eqb_eq in E. destruct l as [|y l]; [simpl in E; lia|].
    eexists; split; [reflexivity|]. cbn [bind m_buffer m_max_size deque_pop_front].
    split; [reflexivity|]. rewrite length_app. cbn [length] in *. lia.
  - apply Nat.eqb_neq in E.
    eexists; split; [reflexivity|]. cbn [bind m_buffer m_max_size].
    split; [reflexivity|]. rewrite length_app. cbn [length]. lia.
Qed.

Lemma apply_ops_within_capacity : forall (ops : list (op T)) cb,
  (1 <= m_max_size cb)%nat -> (size cb <= m_max_size cb)%nat ->
  exists cb', apply_ops cb ops = Ret cb'
              /\ m_max_size cb' = m_max_size cb
              /\ (size cb' <= m_max_size cb')%nat.
Proof.
  induction ops as [|o ops IH]; intros cb Hc Hs.
  - exists cb. repeat split; assumption.
  - assert (Hstep : exists cb1, apply_op cb o = Ret cb1
                                /\ m_max_size cb1 = m_max_size cb
                                /\ (size cb1 <= m_max_size cb1)%nat).
    { destruct o as [x| |]; cbn [apply_op].
      - destruct (push_within_capacity cb x Hc Hs) as (cb1 & Hp & Hm & Hsz).
        exists cb1. repeat split; try assumption. lia.
      - eexists; split; [reflexivity|]. destruct cb as [c [|y l]]; unfold size in *;
          cbn in *; split; auto; lia.
      - eexists; split; [reflexivity|]. unfold size, reset. cbn. split; auto; lia. }
    destruct Hstep as (cb1 & Hop & Hm & Hsz).
    destruct (IH cb1) as (cb' & Hrun & Hm' & Hsz'); [lia | assumption |].
    exists cb'. cbn [apply_ops]. rewrite Hop. cbn [bind].
    repeat split; try assumption. congruence.
Qed.

(** X1. Whatever pushes, pops and resets are applied to a fresh window of
    capacity [c >= 1], in whatever order, every call is defined, the
    capacity stays [c], and the window never holds more than [c] elements. *)
Theorem operations_keep_size_within_capacity
  (c : nat) (ops : list (op T)) (Hc : (1 <= c)%nat) :
  exists cb,
    (cb0 <- construct T c ;; apply_ops cb0 ops)%outcome = Ret cb
    /\ m_max_size cb = c
    /\ (size cb <= c)%nat.
Proof.
  unfold construct. cbn [bind].
  destruct (apply_ops_within_capacity ops {| m_max_size := c; m_buffer := [] |})
    as (cb & Hrun & Hm & Hs); [exact Hc | cbn; lia |].
  exists cb. cbn [m_max_size] in *. repeat split; [assumption | assumption | lia].
Qed.

Lemma pop_n_drains : forall l (c k : nat),
  pop_n (length l + k) {| m_max_size := c; m_buffer := l |}
  = (map Some l ++ repeat None k, {| m_max_size := c; m_buffer := [] |}).
Proof.
  induction l as [|x l IH]; intros c k.
  - cbn [length Nat.add map app]. induction k as [|k IHk]; [reflexivity|].
    cbn [pop_n pop pop_front m_buffer repeat]. now rewrite IHk.
  - cbn [length Nat.add pop_n pop pop_front m_buffer m_max_size map app].
    now rewrite IH.
Qed.

(** X2. After any number of pushes into a fresh window of capacity
    [c >= 1], popping returns the retained values, the last [c] pushed ones,
    oldest first; every further pop returns none; and the window is then
    empty with its capacity unchanged. *)
Theorem pops_return_retained_values_oldest_first
  (c : nat) (vs : list T) (k : nat) (Hc : (1 <= c)%nat) :
  exists cb,
    (cb0 <- construct T c ;; push_all cb0 vs)%outcome = Ret cb
    /\ pop_n (size cb + k) cb
       = (map Some (lastn c vs) ++ repeat None k, reset cb).
Proof.
  exists {| m_max_size := c; m_buffer := lastn c vs |}. split.
  - unfold construct. cbn [bind].
    change (@nil T) with (lastn c (@nil T)) at 1.
    now rewrite push_all_lastn.
  - unfold size, reset. cbn [m_buffer m_max_size]. apply pop_n_drains.
Qed.

End Operations.

Lemma operations_keep_size_within_capacity_witness :
  exists cb,
    (cb0 <- construct Z 2 ;;
     apply_ops cb0 [Push 1; Push 2; Push 3; Pop; Reset; Pop; Push 4]%Z)%outcome = Ret cb
    /\ (size cb <= 2)%nat.
Proof.
  destruct (operations_keep_size_within_capacity Z 2
              [Push 1; Push 2; Push 3; Pop; Reset; Pop; Push 4]%Z)
    as (cb & Hrun & _ & Hs); [repeat constructor|].
  exists cb. split; [exact Hrun | exact Hs].
Defined.

Lemma pops_return_retained_values_oldest_first_witness :
  exists cb,
    (cb0 <- construct Z 3 ;; push_all cb0 [1; 2; 3; 4]%Z)%outcome = Ret cb
    /\ pop_n 5 cb = ([Some 2; Some 3; Some 4; None; None]%Z, reset cb).
Proof.
  destruct (pops_return_retained_values_oldest_first Z 3 [1; 2; 3; 4]%Z 2)
    as (cb & Hrun & Hpop); [repeat constructor|].
  exists cb. split; [exact Hrun|].
  assert (Hsize : size cb = 3%nat).
  { cbn in Hrun. injection Hrun as <-. reflexivity. }
  rewrite Hsize in Hpop. exact Hpop.
Defined.

Implicit Types (cb : t Z) (l : list Z).


(** *** The statistics see the samples as a multiset *)









(** *** Spread *)












End WindowExtras.

(** * Further properties of the bar and of its estimator *)

Module BarExtras.

Import ProgressBar Reference EstimatorFacts.

Local Open Scope Z_scope.

Implicit Types (pb : t) (st : etc_state) (s : statics).

(** *** Bars without a total *)






(** *** The estimate of the warm-up path *)

Lemma u64_product_no_wrap : forall e d : Z,
  0 <= e -> 0 <= d -> e * d < 2 ^ 63 -> u64 (u64 e * u64 d) = e * d.
Proof.
  intros e d He Hd Hfit. unfold u64.
  assert (H63 : 2 ^ 63 = 9223372036854775808) by reflexivity.
  assert (H64 : 2 ^ 64 = 18446744073709551616) by reflexivity.
  destruct (Z.eq_dec e 0) as [-> | He0].
  { rewrite Z.mod_0_l by lia. reflexivity. }
  destruct (Z.eq_dec d 0) as [-> | Hd0].
  { rewrite (Z.mod_0_l (2 ^ 64)) by lia. rewrite !Z.mul_0_r. reflexivity. }
  assert (e < 2 ^ 63) by nia. assert (d < 2 ^ 63) by nia.
  rewrite (Z.mod_small e), (Z.mod_small d) by lia.
  apply Z.mod_small. nia.
Qed.

Lemma reachable_call_returns_overall : forall pb now st,
  reachable st -> m_progress pb <> 0 -> m_total pb <> 0 ->
  exists st', calculate_etc pb now st = Ret (s64 (overall_etc pb now), st')
              /\ reachable st'.
Proof.
  intros pb now st Hr Hp Ht.
  destruct (warming_path pb st (reachable_warming _ Hr)) as [Hpath | Hpath].
  - apply path_unavailable in Hpath. tauto.
  - destruct (calculate_etc_warm_up pb now st Hpath) as (s & s' & _ & Hcall & _).
    eexists. split; [exact Hcall|]. econstructor; eassumption.
Qed.

(** X9. At a constant rate the estimate is exact: when the elapsed time is
    [r] ms for each of the [progress] units done, the call returns
    [r * (total - progress)], the time the remaining units take at that
    rate (as long as [elapsed * (total - progress)] stays below 2^63). *)
Theorem constant_rate_estimate_is_exact
  (pb : t) (now : Z) (st : etc_state) (r : Z)
  (Hreach : reachable st)
  (Hprogress : 0 < m_progress pb <= m_total pb)
  (Hrate : 0 <= r /\ duration_cast_ms (now - m_start_time pb) = r * m_progress pb)
  (Hfit : r * m_progress pb * (m_total pb - m_progress pb) < 2 ^ 63) :
  exists st',
    calculate_etc pb now st = Ret (r * (m_total pb - m_progress pb), st').
Proof.
  destruct Hrate as [Hr0 Hrate].
  destruct (reachable_call_returns_overall pb now st Hreach) as (st' & Hcall & _);
    [lia | lia |].
  exists st'. rewrite Hcall. do 2 f_equal.
  unfold overall_etc. rewrite Hrate.
  rewrite u64_product_no_wrap by nia.
  replace (r * m_progress pb * (m_total pb - m_progress pb))
    with (r * (m_total pb - m_progress pb) * m_progress pb) by ring.
  rewrite Z.div_mul by lia.
  unfold s64. rewrite Z.mod_small; [lia|].
  assert (2 ^ 63 = 9223372036854775808) by reflexivity.
  assert (2 ^ 64 = 18446744073709551616) by reflexivity.
  nia.
Qed.

Lemma constant_rate_estimate_is_exact_witness :
  exists st', calculate_etc {| m_total := 100; m_progress := 40; m_start_time := 0 |}
                4000000000 None = Ret (6000, st').
Proof.
  destruct (constant_rate_estimate_is_exact
              {| m_total := 100; m_progress := 40; m_start_time := 0 |}
              4000000000 None 100)
    as (st' & Hcall).
  - constructor.
  - cbn. lia.
  - split; [lia | reflexivity].
  - reflexivity.
  - exists st'. exact Hcall.
Defined.

(** X10. Once all units are done the estimate is zero, whatever time has
    elapsed. *)
Theorem estimate_is_zero_at_completion
  (pb : t) (now : Z) (st : etc_state)
  (Hreach : reachable st)
  (Hdone : m_progress pb = m_total pb)
  (Hpos : 0 < m_total pb) :
  exists st', calculate_etc pb now st = Ret (0, st').
Proof.
  destruct (reachable_call_returns_overall pb now st Hreach) as (st' & Hcall & _);
    [lia | lia |].
  exists st'. rewrite Hcall. do 2 f_equal.
  unfold overall_etc. rewrite Hdone, Z.sub_diag.
  unfold u64 at 3. rewrite Z.mod_0_l by (intro; discriminate).
  rewrite Z.mul_0_r. unfold u64. rewrite Z.mod_0_l by (intro; discriminate).
  rewrite Z.div_0_l by lia. reflexivity.
Qed.

Lemma estimate_is_zero_at_completion_witness :
  exists st', calculate_etc {| m_total := 7; m_progress := 7; m_start_time := 0 |}
                123456789 None = Ret (0, st').
Proof.
  destruct (estimate_is_zero_at_completion
              {| m_total := 7; m_progress := 7; m_start_time := 0 |} 123456789 None)
    as (st' & Hcall).
  - constructor.
  - reflexivity.
  - reflexivity.
  - exists st'. exact Hcall.
Defined.

Lemma overall_etc_no_wrap : forall pb now,
  0 <= duration_cast_ms (now - m_start_time pb) ->
  0 < m_progress pb <= m_total pb ->
  duration_cast_ms (now - m_start_time pb) * (m_total pb - m_progress pb) < 2 ^ 63 ->
  s64 (overall_etc pb now)
  = duration_cast_ms (now - m_start_time pb) * (m_total pb - m_progress pb)
    / m_progress pb
  /\ 0 <= s64 (overall_etc pb now).
Proof.
  intros pb now He Hp Hfit. unfold overall_etc.
  rewrite u64_product_no_wrap by lia.
  set (N := duration_cast_ms (now - m_start_time pb) * (m_total pb - m_progress pb)) in *.
  assert (HN : 0 <= N) by (subst N; nia).
  assert (Hq : 0 <= N / m_progress pb <= N).
  { split; [apply Z.div_pos; lia|]. apply Z.div_le_upper_bound; [lia | nia]. }
  assert (2 ^ 63 = 9223372036854775808) by reflexivity.
  assert (2 ^ 64 = 18446744073709551616) by reflexivity.
  unfold s64. rewrite Z.mod_small by lia. lia.
Qed.

(** X17. At a given moment the estimate never grows with the progress: of
    two bars with the same total and start, the one with more units done
    gets the smaller (or equal) estimate, and neither is negative (as long
    as [elapsed * (total - progress)] stays below 2^63). *)
Theorem estimate_decreases_with_progress
  (total start now p p' : Z) (st st' : etc_state)
  (Hreach : reachable st /\ reachable st')
  (Helapsed : 0 <= duration_cast_ms (now - start))
  (Hprogress : 0 < p <= p' /\ p' <= total)
  (Hfit : duration_cast_ms (now - start) * (total - p) < 2 ^ 63) :
  exists etc etc' st1 st2,
    calculate_etc {| m_total := total; m_progress := p; m_start_time := start |}
      now st = Ret (etc, st1)
    /\ calculate_etc {| m_total := total; m_progress := p'; m_start_time := start |}
         now st' = Ret (etc', st2)
    /\ 0 <= etc' <= etc.
Proof.
  destruct Hreach as [Hr Hr']. destruct Hprogress as [Hp Hp'].
  set (e := duration_cast_ms (now - start)) in *.
  destruct (reachable_call_returns_overall
              {| m_total := total; m_progress := p; m_start_time := start |}
              now st Hr) as (st1 & Hcall & _); [cbn; lia | cbn; lia |].
  destruct (reachable_call_returns_overall
              {| m_total := total; m_progress := p'; m_start_time := start |}
              now st' Hr') as (st2 & Hcall' & _); [cbn; lia | cbn; lia |].
  assert (Hfit' : e * (total - p') < 2 ^ 63) by nia.
  destruct (overall_etc_no_wrap
              {| m_total := total; m_progress := p; m_start_time := start |} now)
    as [Hv _]; [exact Helapsed | cbn; lia | exact Hfit |].
  destruct (overall_etc_no_wrap
              {| m_total := total; m_progress := p'; m_start_time := start |} now)
    as [Hv' Hpos']; [exact Helapsed | cbn; lia | exact Hfit' |].
  cbn [m_total m_progress m_start_time] in Hv, Hv'. fold e in Hv, Hv'.
  eexists _, _, st1, st2. split; [exact Hcall|]. split; [exact Hcall'|].
  split; [exact Hpos'|]. rewrite Hv, Hv'.
  apply Z.le_trans with (e * (total - p) / p').
  - apply Z.div_le_mono; [lia | nia].
  - apply Z.div_le_compat_l; [nia | lia].
Qed.

Lemma estimate_decreases_with_progress_witness :
  exists etc etc' st1 st2,
    calculate_etc {| m_total := 10; m_progress := 3; m_start_time := 0 |}
      10000000 None = Ret (etc, st1)
    /\ calculate_etc {| m_total := 10; m_progress := 4; m_start_time := 0 |}
         10000000 None = Ret (etc', st2)
    /\ 0 <= etc' <= etc.
Proof.
  apply (estimate_decreases_with_progress 10 0 10000000 3 4 None None).
  - split; constructor.
  - discriminate.
  - lia.
  - reflexivity.
Defined.

(** *** The update counter *)

Lemma zero_counter_call : forall pb now s,
  m_update_counter s = 0 ->
  exists etc s',
    calculate_etc pb now (Some s) = Ret (etc, Some s')
    /\ m_update_counter s' = 0
    /\ m_delta_times s' = m_delta_times s
    /\ (etc = UNAVAILABLE \/ etc = s64 (overall_etc pb now)).
Proof.
  intros pb now s Hc. unfold calculate_etc. cbn [init_or_current bind].
  rewrite Hc. cbn [Z.eqb orb].
  destruct ((m_progress pb =? 0) || (m_total pb =? 0)).
  - exists UNAVAILABLE, s. repeat split; auto.
  - eexists _, _. split; [reflexivity|]. cbn [m_update_counter m_delta_times].
    repeat split; auto.
Qed.

(** X11. A zero update counter is absorbing. From any state of the statics
    whose counter is zero, whatever the window holds, every later call
    returns the sentinel or the warm-up estimate and leaves the counter at
    zero and the delta window as it is: no sample is ever added. *)
Theorem zero_counter_is_absorbing
  (s : statics) (calls : list (t * Z)) (Hzero : m_update_counter s = 0) :
  exists etcs s',
    calculate_etc_calls calls (Some s) = Ret (etcs, Some s')
    /\ m_update_counter s' = 0
    /\ m_delta_times s' = m_delta_times s
    /\ Forall2 (fun call etc =>
                  etc = UNAVAILABLE \/ etc = s64 (overall_etc (fst call) (snd call)))
         calls etcs.
Proof.
  revert s Hzero. induction calls as [|[pb now] calls IH]; intros s Hzero.
  - exists [], s. repeat split; [assumption | constructor].
  - destruct (zero_counter_call pb now s Hzero) as (etc & s1 & Hcall & Hc1 & Hd1 & Hetc).
    destruct (IH s1 Hc1) as (etcs & s2 & Hcalls & Hc2 & Hd2 & Hall).
    exists (etc :: etcs), s2. cbn [calculate_etc_calls].
    rewrite Hcall. cbn [bind]. rewrite Hcalls. cbn [bind].
    split; [reflexivity|]. split; [assumption|]. split; [congruence|].
    constructor; assumption.
Qed.

Lemma zero_counter_is_absorbing_witness :
  exists etcs s',
    calculate_etc_calls [(bar_1_of_100, 1000000); (bar_3_of_10, 10000000)]
      (Some {| m_delta_times := m_delta_times steady_statics;
               m_last_etc := 0;
               m_update_counter := 0;
               m_last_tick_time := 0 |})
    = Ret (etcs, Some s')
    /\ m_delta_times s' = m_delta_times steady_statics.
Proof.
  destruct (zero_counter_is_absorbing
              {| m_delta_times := m_delta_times steady_statics;
                 m_last_etc := 0;
                 m_update_counter := 0;
                 m_last_tick_time := 0 |}
              [(bar_1_of_100, 1000000); (bar_3_of_10, 10000000)] eq_refl)
    as (etcs & s' & Hcalls & _ & Hd & _).
  exists etcs, s'. split; [exact Hcalls | exact Hd].
Defined.



(** *** The layout *)

Section LayoutFacts.

Variable scale_by_BAR_PERCENTAGE : Z -> Z.
Variable have_fmt : bool.

(** The product is converted to [size_t]. *)
Hypothesis scale_is_size_t : forall a, 0 <= scale_by_BAR_PERCENTAGE a < 2 ^ 64.

Lemma calculate_bar_length : forall (terminal_width : Z) (lay : layout),
  let lay' := calculate_bar scale_by_BAR_PERCENTAGE have_fmt terminal_width lay in
  let scaled := scale_by_BAR_PERCENTAGE (m_available_width lay') in
  m_bar_length lay' = Z.max scaled 15 - Z.max scaled 15 mod 2.
Proof.
  intros terminal_width lay. cbv zeta.
  unfold calculate_bar, MIN_BAR_LENGTH. cbn [m_bar_length m_available_width].
  set (a := u64 (u64 (terminal_width - u64 (m_name_length lay + 10)) - 14)).
  pose proof (scale_is_size_t a) as Hs.
  assert (H64 : 2 ^ 64 = 18446744073709551616) by reflexivity.
  set (b := Z.max (scale_by_BAR_PERCENTAGE a) 15) in *.
  assert (Hb : 15 <= b < 2 ^ 64) by (subst b; lia).
  pose proof (Z.mod_pos_bound b 2 eq_refl) as Hm.
  destruct (Z.eqb_spec (b mod 2) 0) as [E | E].
  - lia.
  - unfold u64. rewrite Z.mod_small by lia. lia.
Qed.

End LayoutFacts.

(** X13. Whatever the terminal width and the name, and whatever the scaled
    width comes to, [calculate_bar] leaves a bar length that is even and at
    least 14: the scaled width raised to 15 at least, less one when odd. It
    does not change the name length. *)
Theorem bar_length_is_even_and_at_least_14
  (scale_by_BAR_PERCENTAGE : Z -> Z) (have_fmt : bool)
  (terminal_width : Z) (lay : layout)
  (Hscale : forall a, 0 <= scale_by_BAR_PERCENTAGE a < 2 ^ 64) :
  let lay' := calculate_bar scale_by_BAR_PERCENTAGE have_fmt terminal_width lay in
  let scaled := scale_by_BAR_PERCENTAGE (m_available_width lay') in
  14 <= m_bar_length lay' < 2 ^ 64
  /\ m_bar_length lay' mod 2 = 0
  /\ Z.max scaled 15 - 1 <= m_bar_length lay' <= Z.max scaled 15
  /\ m_name_length lay' = m_name_length lay.
Proof.
  cbv zeta.
  pose proof (calculate_bar_length scale_by_BAR_PERCENTAGE have_fmt Hscale
                terminal_width lay) as Hlen.
  cbv zeta in Hlen. rewrite Hlen.
  assert (H64 : 2 ^ 64 = 18446744073709551616) by reflexivity.
  match goal with
  | |- context [Z.max (scale_by_BAR_PERCENTAGE ?a) 15] =>
      pose proof (Hscale a) as Hs;
      set (b := Z.max (scale_by_BAR_PERCENTAGE a) 15) in *
  end.
  assert (Hb : 15 <= b < 2 ^ 64) by (subst b; lia).
  pose proof (Z.mod_pos_bound b 2 eq_refl) as Hm.
  split; [lia|]. split; [|split; [lia | reflexivity]].
  rewrite Zminus_mod, Z.mod_mod, Z.sub_diag by lia. reflexivity.
Qed.

Lemma bar_length_is_even_and_at_least_14_witness :
  m_bar_length (calculate_bar (fun a => (a * 15 / 100) mod 2 ^ 64) false 80
                  {| m_available_width := 0; m_name_length := 8;
                     m_spaces_after_bar := 0; m_bar_length := 0 |}) mod 2 = 0.
Proof.
  apply (bar_length_is_even_and_at_least_14
           (fun a => (a * 15 / 100) mod 2 ^ 64) false 80
           {| m_available_width := 0; m_name_length := 8;
              m_spaces_after_bar := 0; m_bar_length := 0 |}).
  intros a. apply Z.mod_pos_bound. reflexivity.
Defined.

(** X14. The available width is
    [terminal_width - name_length - 24] computed in [size_t]: on a terminal
    narrower than the name plus 24 columns it wraps around to just below
    [2^64] instead of becoming small. *)
Theorem narrow_terminal_wraps_available_width
  (scale_by_BAR_PERCENTAGE : Z -> Z) (have_fmt : bool)
  (terminal_width : Z) (lay : layout)
  (Hwidth : 0 <= terminal_width < 2 ^ 64)
  (Hname : 0 <= m_name_length lay < 2 ^ 64 - 24) :
  let lay' := calculate_bar scale_by_BAR_PERCENTAGE have_fmt terminal_width lay in
  (m_name_length lay + 24 <= terminal_width ->
   m_available_width lay' = terminal_width - m_name_length lay - 24)
  /\ (terminal_width < m_name_length lay + 24 ->
      m_available_width lay' = 2 ^ 64 + terminal_width - m_name_length lay - 24).
Proof.
  cbv zeta. unfold calculate_bar. cbn [m_available_width].
  assert (H64 : 2 ^ 64 = 18446744073709551616) by reflexivity.
  set (n := m_name_length lay) in *.
  unfold u64. rewrite (Z.mod_small (n + 10)) by lia.
  split; intros H.
  - rewrite (Z.mod_small (terminal_width - (n + 10))) by lia.
    rewrite Z.mod_small by lia. lia.
  - destruct (Z_lt_le_dec terminal_width (n + 10)) as [Hlt | Hge].
    + replace (terminal_width - (n + 10))
        with (2 ^ 64 + terminal_width - (n + 10) + (-1) * 2 ^ 64) by ring.
      rewrite Z.mod_add by lia.
      rewrite (Z.mod_small (2 ^ 64 + terminal_width - (n + 10))) by lia.
      rewrite Z.mod_small by lia. lia.
    + rewrite (Z.mod_small (terminal_width - (n + 10))) by lia.
      replace (terminal_width - (n + 10) - 14)
        with (2 ^ 64 + terminal_width - n - 24 + (-1) * 2 ^ 64) by ring.
      rewrite Z.mod_add by lia. rewrite Z.mod_small by lia. reflexivity.
Qed.

(** The width used when the terminal cannot be queried, with the default
    name "Progress". *)
Lemma narrow_terminal_wraps_available_width_witness :
  m_available_width (calculate_bar (fun a => a) false DEFAULT_WIDTH
                       {| m_available_width := 0; m_name_length := 8;
                          m_spaces_after_bar := 0; m_bar_length := 0 |})
  = 2 ^ 64 - 2.
Proof.
  refine (eq_trans
            (proj2 (narrow_terminal_wraps_available_width (fun a => a) false
                      DEFAULT_WIDTH
                      {| m_available_width := 0; m_name_length := 8;
                         m_spaces_after_bar := 0; m_bar_length := 0 |} _ _) _) _).
  - unfold DEFAULT_WIDTH. split; [lia | reflexivity].
  - cbn [m_name_length]. split; [lia | reflexivity].
  - reflexivity.
  - reflexivity.
Defined.



(** *** Formatting a time *)

(** X16. [append_time] splits a time into days, hours, minutes, seconds and
    milliseconds that add up to it again. For a non-negative time every
    field is in its clock range, and the stream variant writes the days,
    hours and minutes exactly when the time is at least a day, an hour, a
    minute, and the milliseconds exactly when the time is not a whole
    number of seconds. For a negative time no field is positive, so only the
    seconds are written. *)
Theorem split_time_recomposes (time : Z) :
  let parts := split_time time in
  time = days_duration parts * 86400000 + hours_duration parts * 3600000
         + minutes_duration parts * 60000 + seconds_duration parts * 1000
         + milliseconds_duration parts
  /\ (0 <= time ->
      0 <= days_duration parts
      /\ 0 <= hours_duration parts < 24
      /\ 0 <= minutes_duration parts < 60
      /\ 0 <= seconds_duration parts < 60
      /\ 0 <= milliseconds_duration parts < 1000
      /\ fields_written parts
         = {| shows_days := 86400000 <=? time;
              shows_hours := 3600000 <=? time;
              shows_minutes := 60000 <=? time;
              shows_milliseconds := negb (time mod 1000 =? 0) |})
  /\ (time < 0 ->
      days_duration parts <= 0
      /\ -24 < hours_duration parts <= 0
      /\ -60 < minutes_duration parts <= 0
      /\ -60 < seconds_duration parts <= 0
      /\ -1000 < milliseconds_duration parts <= 0
      /\ fields_written parts
         = {| shows_days := false; shows_hours := false;
              shows_minutes := false; shows_milliseconds := false |}).
Proof.
  cbv zeta. unfold split_time, fields_written, SECONDS_PER_DAY.
  cbn [days_duration hours_duration minutes_duration seconds_duration
       milliseconds_duration].
  change (86400 * 1000) with 86400000.
  set (d := Z.quot time 86400000).
  set (t1 := time - d * 86400000).
  set (h := Z.quot t1 3600000).
  set (t2 := t1 - h * 3600000).
  set (m := Z.quot t2 60000).
  set (t3 := t2 - m * 60000).
  set (sec := Z.quot t3 1000).
  set (ms := t3 - sec * 1000).
  split; [subst ms t3 t2 t1; ring|].
  split; intros Ht.
  - assert (Hd : 0 <= d /\ 0 <= t1 < 86400000)
      by (subst t1 d; Z.quot_rem_to_equations; lia).
    assert (Hh : 0 <= h < 24 /\ 0 <= t2 < 3600000)
      by (subst t2 h; Z.quot_rem_to_equations; lia).
    assert (Hm : 0 <= m < 60 /\ 0 <= t3 < 60000)
      by (subst t3 m; Z.quot_rem_to_equations; lia).
    assert (Hs : 0 <= sec < 60 /\ 0 <= ms < 1000)
      by (subst ms sec; Z.quot_rem_to_equations; lia).
    repeat (split; [lia|]).
    assert (Hms : ms = time mod 1000).
    { apply (Z.mod_unique time 1000 (d * 86400 + h * 3600 + m * 60 + sec) ms);
        [lia | subst ms t3 t2 t1; ring]. }
    f_equal.
    + destruct (Z.ltb_spec 0 d), (Z.leb_spec 86400000 time);
        try reflexivity; subst t1; lia.
    + destruct (Z.ltb_spec 0 d), (Z.ltb_spec 0 h), (Z.leb_spec 3600000 time);
        try reflexivity; subst t2 t1; lia.
    + destruct (Z.ltb_spec 0 d), (Z.ltb_spec 0 h), (Z.ltb_spec 0 m),
        (Z.leb_spec 60000 time); try reflexivity; subst t3 t2 t1; lia.
    + rewrite <- Hms.
      destruct (Z.ltb_spec 0 ms), (Z.eqb_spec ms 0); try reflexivity; lia.
  - assert (Hd : d <= 0 /\ -86400000 < t1 <= 0)
      by (subst t1 d; Z.quot_rem_to_equations; lia).
    assert (Hh : -24 < h <= 0 /\ -3600000 < t2 <= 0)
      by (subst t2 h; Z.quot_rem_to_equations; lia).
    assert (Hm : -60 < m <= 0 /\ -60000 < t3 <= 0)
      by (subst t3 m; Z.quot_rem_to_equations; lia).
    assert (Hs : -60 < sec <= 0 /\ -1000 < ms <= 0)
      by (subst ms sec; Z.quot_rem_to_equations; lia).
    repeat (split; [lia|]).
    f_equal.
    + apply Z.ltb_ge; lia.
    + apply orb_false_iff; split; apply Z.ltb_ge; lia.
    + repeat (apply orb_false_iff; split); apply Z.ltb_ge; lia.
    + apply Z.ltb_ge; lia.
Qed.

Lemma split_time_recomposes_witness :
  split_time 93784005
  = {| days_duration := 1; hours_duration := 2; minutes_duration := 3;
       seconds_duration := 4; milliseconds_duration := 5 |}
  /\ 0 <= hours_duration (split_time 93784005) < 24.
Proof.
  split; [reflexivity|].
  apply (proj1 (proj2 (split_time_recomposes 93784005))). lia.
Defined.

End BarExtras.
